(** * Default op transformers of the KFP compiler

    A shallow embedding of [sdk/python/kfp/compiler/_default_transformers.py]:
    the telemetry-label constant, the pod-env injector, the static pod-label
    injector and the origin-derived pod-label injector, together with the
    string helpers they rest on.

    Python [str] values are lists of characters, Python [dict]s from [str] to
    [str] are finite maps, and a Python call that can raise returns a
    [result]. *)

From stdpp Require Import gmap strings list fin_maps.
From Stdlib Require Import Ascii ZArith.

Open Scope Z_scope.
Open Scope nat_scope.

(** ** Python strings *)

Abbreviation str := (list ascii).

(** A string literal of the source, as the list of its characters. *)
Definition lit (s : string) : str := String.list_ascii_of_string s.
Coercion lit : string >-> list.

Module PyStr.

(** [s.endswith(suffix)] and [s.startswith(prefix)]. *)
Definition endswith (s suffix : str) : bool :=
  bool_decide (suffix `suffix_of` s).

Definition startswith (s pre : str) : bool :=
  bool_decide (pre `prefix_of` s).

(** A slice bound [i] of a string of length [n], as Python clamps it: a
    negative bound counts from the end, and everything stays within [0..n]. *)
Definition clamp (n : nat) (i : Z) : nat :=
  if (i <? 0)%Z then Z.to_nat (Z.of_nat n + i) else Nat.min (Z.to_nat i) n.

(** [s[:stop]] *)
Definition slice_to (s : str) (stop : Z) : str :=
  take (clamp (length s) stop) s.

(** [s[start:]] *)
Definition slice_from (s : str) (start : Z) : str :=
  drop (clamp (length s) start) s.

(** [s.lstrip(chars)], [s.rstrip(chars)] and [s.strip(chars)]: characters of
    the set [chars] are dropped from the left end, the right end, or both. *)
Fixpoint lstrip (chars s : str) : str :=
  match s with
  | [] => []
  | c :: s' => if bool_decide (c ∈ chars) then lstrip chars s' else s
  end.

Definition rstrip (chars s : str) : str :=
  reverse (lstrip chars (reverse s)).

Definition strip (chars s : str) : str :=
  rstrip chars (lstrip chars s).

(** [s.split(sep, maxsplit)] for a one-character separator: at most
    [maxsplit] cuts, leftmost first, the rest of the string kept whole in the
    last field. The result is never empty. *)
Fixpoint split (sep : ascii) (maxsplit : nat) (s : str) : list str :=
  match maxsplit with
  | 0 => [s]
  | S m =>
      match s with
      | [] => [[]]
      | c :: s' =>
          if bool_decide (c = sep) then [] :: split sep m s'
          else
            match split sep maxsplit s' with
            | field :: fields => (c :: field) :: fields
            | [] => [[c]]
            end
      end
  end.

(** [re.sub(pattern, repl, s)] for a pattern that is one character class:
    every character matched by [pattern] is replaced by [repl]. *)
Definition re_sub (pattern : ascii → bool) (repl s : str) : str :=
  s ≫= (λ c, if pattern c then repl else [c]).

(** Truth value of an [Optional[str]]: [None] and the empty string are
    false. *)
Definition truthy (o : option str) : option str :=
  match o with
  | Some (c :: s) => Some (c :: s)
  | _ => None
  end.

End PyStr.

(** ** Exceptions *)

Inductive PyExn := AttributeError | IndexError.

Inductive result (A : Type) :=
| Ok (a : A)
| Raise (e : PyExn).
Arguments Ok {A} a.
Arguments Raise {A} e.

#[global] Instance result_ret : MRet result := λ A a, Ok a.
#[global] Instance result_bind : MBind result := λ A B k r,
  match r with
  | Ok a => k a
  | Raise e => Raise e
  end.

(** [l[-1]]: the last element, [IndexError] on an empty list. *)
Definition py_last {A} (l : list A) : result A :=
  match last l with
  | Some x => Ok x
  | None => Raise IndexError
  end.

(** ** Module constants *)

Definition _SDK_ENV_LABEL : str := "pipelines.kubeflow.org/pipeline-sdk-type".
Definition _SDK_ENV_DEFAULT : str := "kfp".
Definition _OOB_COMPONENT_PATH_PREFIX : str :=
  "https://raw.githubusercontent.com/kubeflow/pipelines".
Definition COMPONENT_PATH_LABEL_KEY : str :=
  "pipelines.kubeflow.org/component_origin_path".
Definition COMPONENT_DIGEST_LABEL_KEY : str :=
  "pipelines.kubeflow.org/component_digest".

(** ** [_remove_suffix] *)

Definition _remove_suffix (string suffix : str) : str :=
  if negb (bool_decide (suffix = [])) && PyStr.endswith string suffix
  then PyStr.slice_to string (- Z.of_nat (length suffix))
  else string.

(** The character class of the pattern ['[^-a-z0-9A-Z_.]']: the characters
    the pattern does NOT match are ['-'], the ranges [a-z], [0-9], [A-Z],
    ['_'] and ['.']. *)
Definition in_range (lo hi c : ascii) : bool :=
  (Ascii.leb lo c && Ascii.leb c hi)%bool.

Definition label_char (c : ascii) : bool :=
  bool_decide (c = "-"%char) || in_range "a" "z" c || in_range "0" "9" c
  || in_range "A" "Z" c || bool_decide (c = "_"%char)
  || bool_decide (c = "."%char).

Definition not_label_char (c : ascii) : bool := negb (label_char c).

(** ** Data model *)

(** The Kubernetes client's descriptors of an environment variable whose
    value is read from a field of the pod. *)
Record V1ObjectFieldSelector := { field_path : str }.
Record V1EnvVarSource := { field_ref : V1ObjectFieldSelector }.
Record V1EnvVar := { name : str; value_from : V1EnvVarSource }.

(** Modelled from the spec: the component reference ([_component_ref]) is an
    optional descriptor with optional [url] and [digest] string fields; its
    class is declared outside this file. *)
Record ComponentReference := {
  url : option str;
  digest : option str;
}.

(** Modelled from the spec: a container is an object accepting
    environment-variable attachments; [add_env_variable] appends one
    descriptor and returns the container. *)
Record Container := { env : list V1EnvVar }.

Definition add_env_variable (c : Container) (v : V1EnvVar) : Container :=
  {| env := env c ++ [v] |}.

(** Modelled from the spec: a task ([BaseOp]) has a mutable [pod_labels]
    mapping from strings to strings and an optional [_component_ref]; the
    container-backed variant ([ContainerOp]) owns a [container] as well. The
    classes are declared in [dsl/_container_op.py]. *)
Record BaseOp := {
  pod_labels : gmap str str;
  _component_ref : option ComponentReference;
}.

Inductive Op :=
| ContainerOp (base : BaseOp) (container : Container)
| OtherOp (base : BaseOp).

Definition base (op : Op) : BaseOp :=
  match op with
  | ContainerOp b _ => b
  | OtherOp b => b
  end.

Definition with_base (op : Op) (b : BaseOp) : Op :=
  match op with
  | ContainerOp _ c => ContainerOp b c
  | OtherOp _ => OtherOp b
  end.

(** Modelled from the spec: [task.add_pod_label(name, value)] sets the label
    [name] of the task to [value] and returns the task. *)
Definition add_pod_label (task : Op) (name value : str) : Op :=
  with_base task
    {| pod_labels := <[name := value]> (pod_labels (base task));
       _component_ref := _component_ref (base task) |}.

(** ** [get_default_telemetry_labels] *)

Definition get_default_telemetry_labels : gmap str str :=
  <[_SDK_ENV_LABEL := _SDK_ENV_DEFAULT]> ∅.

(** ** [add_pod_env] *)

Definition field_env_var (nm path : str) : V1EnvVar :=
  {| name := nm;
     value_from := {| field_ref := {| field_path := path |} |} |}.

Definition add_pod_env (op : Op) : Op :=
  match op with
  | ContainerOp b c =>
      if negb (bool_decide (pod_labels b = ∅))
         && bool_decide (pod_labels b !! lit "add-pod-env" = Some (lit "true"))
      then
        ContainerOp b
          (add_env_variable
             (add_env_variable c (field_env_var "KFP_POD_NAME" "metadata.name"))
             (field_env_var "KFP_NAMESPACE" "metadata.namespace"))
      else op
  | OtherOp _ => op
  end.

(** ** [add_pod_labels] *)

(** One turn of the loop [for k, v in labels.items()]. *)
Definition add_pod_labels_step (task : Op) (kv : str * str) : Op :=
  if bool_decide (pod_labels (base task) !! kv.1 = None)
  then add_pod_label task kv.1 kv.2
  else task.

(** The transformer [_add_pod_labels] that [add_pod_labels(labels)] returns.
    [labels] is an [Optional] mapping that defaults to [None], and
    [labels.items()] raises [AttributeError] on [None]. *)
Definition _add_pod_labels (labels : option (gmap str str)) (task : Op)
  : result Op :=
  match labels with
  | None => Raise AttributeError
  | Some labels => Ok (foldl add_pod_labels_step task (map_to_list labels))
  end.

Definition add_pod_labels (labels : option (gmap str str)) : Op → result Op :=
  _add_pod_labels labels.

(** ** [add_name_for_oob_components] *)

(** The second [if] of the transformer: [if component_ref.digest: ...]. *)
Definition add_digest_label (component_ref : ComponentReference) (task : Op)
  : Op :=
  match PyStr.truthy (digest component_ref) with
  | Some d => add_pod_label task COMPONENT_DIGEST_LABEL_KEY (PyStr.slice_to d 63)
  | None => task
  end.

(** Lines 106 to 111, once the prefix check has passed: the last of at most
    eight fields, cleaned and cut to a label value. *)
Definition origin_path_label (origin_path : str) : result str :=
  origin_path ← py_last (PyStr.split "/" 7 origin_path);
  let origin_path := PyStr.re_sub not_label_char "." origin_path in
  Ok (PyStr.strip "-_." (PyStr.slice_from origin_path (-63))).

(** The transformer [_add_name_for_oob_components] that
    [add_name_for_oob_components()] returns. *)
Definition _add_name_for_oob_components (task : Op) : result Op :=
  match _component_ref (base task) with
  | Some component_ref =>
      match PyStr.truthy (url component_ref) with
      | Some u =>
          let origin_path :=
            PyStr.rstrip "/" (_remove_suffix u "component.yaml") in
          if PyStr.startswith origin_path _OOB_COMPONENT_PATH_PREFIX then
            origin_path_label ← origin_path_label origin_path;
            Ok (add_digest_label component_ref
                  (add_pod_label task COMPONENT_PATH_LABEL_KEY
                     origin_path_label))
          else Ok task
      | None => Ok (add_digest_label component_ref task)
      end
  | None => Ok task
  end.

Definition add_name_for_oob_components : Op → result Op :=
  _add_name_for_oob_components.

(** ** Helpers of the statements *)

(** A task with its label mapping replaced, everything else kept. *)
Definition with_pod_labels (task : Op) (labels : gmap str str) : Op :=
  with_base task
    {| pod_labels := labels; _component_ref := _component_ref (base task) |}.

(** Lines 102 and 103: the url without the literal suffix ["component.yaml"]
    and without trailing ['/']. *)
Definition origin_path_of_url (u : str) : str :=
  PyStr.rstrip "/" (_remove_suffix u "component.yaml").

(** A task that is not container-backed, with the given labels and a
    component reference of the given url and digest. *)
Definition oob_task (labels : gmap str str) (u d : option str) : Op :=
  OtherOp {| pod_labels := labels;
             _component_ref := Some {| url := u; digest := d |} |}.

Definition oob_url_example : str :=
  "https://raw.githubusercontent.com/kubeflow/pipelines/master/components/foo/bar/component.yaml".

(** ** Kubernetes label values *)

(** The characters a label value may hold, spelled out. *)
Definition label_alphabet : str :=
  "-_.abcdefghijklmnopqrstuvwxyzABCDEFGHIJKLMNOPQRSTUVWXYZ0123456789".

(** The syntax of a label value: characters of [[-a-zA-Z0-9_.]] only, at most
    63 of them, and none of ['-'], ['_'], ['.'] at either end. *)
Definition is_label_value (v : str) : bool :=
  forallb (λ c, bool_decide (c ∈ label_alphabet)) v
  && bool_decide (length v ≤ 63)
  && match head v with
     | Some c => negb (bool_decide (c ∈ lit "-_."))
     | None => true
     end
  && match last v with
     | Some c => negb (bool_decide (c ∈ lit "-_."))
     | None => true
     end.

(** ** Example inputs *)

(** The digest of the example: ["abcdef0123456789"] padded with ['0'] to 70
    characters. *)
Definition digest_example : str :=
  "abcdef0123456789000000000000000000000000000000000000000000000000000000".

(** A url of the catalog whose last path segment is ["foo bar!"]. *)
Definition oob_url_unclean : str :=
  "https://raw.githubusercontent.com/kubeflow/pipelines/master/components/foo bar!/component.yaml".

(** Runs the transformer through its two tests, given the component
    reference [Href] and the truth value [Hurl] of its url. *)
Ltac oob_run Href Hurl :=
  unfold add_name_for_oob_components, _add_name_for_oob_components;
  rewrite Href; cbv beta iota; rewrite Hurl; cbv beta iota zeta;
  try match goal with
      | |- context [_remove_suffix ?u _] => fold (origin_path_of_url u)
      end.

(** * Properties *)

(** ** Slices and the suffix helper *)

Section Slices.
Implicit Types s t : str.

Lemma slice_to_nonneg s (n : nat) :
  PyStr.slice_to s (Z.of_nat n) = take n s.
Proof.
  unfold PyStr.slice_to, PyStr.clamp.
  destruct (Z.ltb_spec (Z.of_nat n) 0) as [?|_]; [lia|].
  rewrite Nat2Z.id. destruct (Nat.min_spec n (length s)) as [[? ->]|[? ->]].
  - done.
  - by rewrite take_ge, take_ge by lia.
Qed.

Lemma slice_to_neg s (n : nat) :
  0 < n → PyStr.slice_to s (- Z.of_nat n) = take (length s - n) s.
Proof.
  intros Hn. unfold PyStr.slice_to, PyStr.clamp.
  destruct (Z.ltb_spec (- Z.of_nat n) 0) as [_|?]; [|lia].
  f_equal. lia.
Qed.

Lemma slice_from_neg s (n : nat) :
  0 < n → PyStr.slice_from s (- Z.of_nat n) = drop (length s - n) s.
Proof.
  intros Hn. unfold PyStr.slice_from, PyStr.clamp.
  destruct (Z.ltb_spec (- Z.of_nat n) 0) as [_|?]; [|lia].
  f_equal. lia.
Qed.

Lemma slice_to_63 s : PyStr.slice_to s 63 = take 63 s.
Proof. apply (slice_to_nonneg s 63). Qed.

Lemma slice_from_last_63 s : PyStr.slice_from s (-63) = drop (length s - 63) s.
Proof. apply (slice_from_neg s 63). lia. Qed.

Lemma remove_suffix_app s t : t ≠ [] → _remove_suffix (s ++ t) t = s.
Proof.
  intros Ht. unfold _remove_suffix, PyStr.endswith.
  rewrite bool_decide_eq_false_2 by done.
  rewrite bool_decide_eq_true_2 by (by exists s). simpl.
  rewrite slice_to_neg by (destruct t; simpl; [done|lia]).
  rewrite length_app.
  replace (length s + length t - length t) with (length s) by lia.
  by rewrite take_app_length.
Qed.

Lemma remove_suffix_id s t : ¬ t `suffix_of` s → _remove_suffix s t = s.
Proof.
  intros Hs. unfold _remove_suffix, PyStr.endswith.
  rewrite (bool_decide_eq_false_2 (t `suffix_of` s)) by done.
  by rewrite andb_false_r.
Qed.

Lemma remove_suffix_nil s : _remove_suffix s [] = s.
Proof. done. Qed.

End Slices.

(** C10: [_remove_suffix] removes exactly one trailing occurrence of a
    non-empty suffix [t] when the string ends with it (the result followed by
    [t] is the string again), returns the string itself when it does not end
    with [t], and returns the string itself for the empty suffix. *)
Theorem remove_suffix_spec (s t : str) :
  (t ≠ [] →
     ((∃ p, s = p ++ t) → _remove_suffix s t ++ t = s)
     ∧ (¬ (∃ p, s = p ++ t) → _remove_suffix s t = s))
  ∧ (t = [] → _remove_suffix s t = s).
Proof.
  split.
  - intros Ht. split.
    + intros [p ->]. by rewrite remove_suffix_app.
    + intros Hno. by apply remove_suffix_id.
  - intros ->. apply remove_suffix_nil.
Qed.

(** ** The telemetry labels *)

(** C9: [get_default_telemetry_labels] is a constant: the mapping with the
    one entry ["pipelines.kubeflow.org/pipeline-sdk-type" -> "kfp"] and
    nothing else. *)
Theorem get_default_telemetry_labels_const :
  get_default_telemetry_labels
  = {[ lit "pipelines.kubeflow.org/pipeline-sdk-type" := lit "kfp" ]}
  ∧ size get_default_telemetry_labels = 1
  ∧ ∀ k, get_default_telemetry_labels !! k
         = if decide (k = lit "pipelines.kubeflow.org/pipeline-sdk-type")
           then Some (lit "kfp") else None.
Proof.
  assert (get_default_telemetry_labels
          = {[ lit "pipelines.kubeflow.org/pipeline-sdk-type" := lit "kfp" ]})
    as Heq by done.
  split; [done|]. rewrite Heq. split.
  - apply map_size_singleton.
  - intros k. rewrite lookup_singleton. by repeat case_decide.
Qed.

(** ** Tasks *)

Lemma with_base_base (op : Op) (b : BaseOp) : base (with_base op b) = b.
Proof. by destruct op. Qed.

Lemma with_base_id (op : Op) : with_base op (base op) = op.
Proof. by destruct op. Qed.

Lemma with_base_twice (op : Op) (b b' : BaseOp) :
  with_base (with_base op b) b' = with_base op b'.
Proof. by destruct op. Qed.

Lemma pod_labels_add_pod_label task k v :
  pod_labels (base (add_pod_label task k v))
  = <[k := v]> (pod_labels (base task)).
Proof. unfold add_pod_label. by rewrite with_base_base. Qed.

Lemma with_pod_labels_id task : with_pod_labels task (pod_labels (base task)) = task.
Proof. unfold with_pod_labels. by destruct task as [[??]?|[??]]. Qed.

Lemma with_pod_labels_twice task m m' :
  with_pod_labels (with_pod_labels task m) m' = with_pod_labels task m'.
Proof.
  unfold with_pod_labels. by rewrite with_base_twice, with_base_base.
Qed.

Lemma pod_labels_with_pod_labels task m :
  pod_labels (base (with_pod_labels task m)) = m.
Proof. unfold with_pod_labels. by rewrite with_base_base. Qed.

(** ** The static label injector *)

Section StaticLabels.
Implicit Types (task : Op) (L m : gmap str str) (l : list (str * str)).

Lemma add_pod_labels_step_union task k v :
  add_pod_labels_step task (k, v)
  = with_pod_labels task (pod_labels (base task) ∪ {[k := v]}).
Proof.
  unfold add_pod_labels_step. simpl. case_bool_decide as Hk.
  - unfold add_pod_label, with_pod_labels. do 2 f_equal.
    apply map_eq. intros j. rewrite lookup_union, lookup_insert, lookup_singleton.
    case_decide; subst; [by rewrite Hk|]. by destruct (_ !! j).
  - rewrite <-(with_pod_labels_id task) at 1. f_equal.
    apply map_eq. intros j. rewrite lookup_union, lookup_singleton.
    destruct (pod_labels (base task) !! j) eqn:Hj; case_decide; naive_solver.
Qed.

Lemma add_pod_labels_loop l task :
  foldl add_pod_labels_step task l
  = with_pod_labels task (pod_labels (base task) ∪ list_to_map l).
Proof.
  revert task. induction l as [|[k v] l IH]; intros task; simpl.
  - by rewrite (right_id_L ∅ (∪)), with_pod_labels_id.
  - rewrite IH, add_pod_labels_step_union, with_pod_labels_twice,
      pod_labels_with_pod_labels.
    f_equal. rewrite <-(assoc_L (∪)). f_equal.
    by rewrite insert_union_singleton_l.
Qed.

Lemma add_pod_labels_union L task :
  add_pod_labels (Some L) task
  = Ok (with_pod_labels task (pod_labels (base task) ∪ L)).
Proof.
  unfold add_pod_labels, _add_pod_labels.
  by rewrite add_pod_labels_loop, list_to_map_to_list.
Qed.

End StaticLabels.

Lemma lit_a_b : lit "a" ≠ lit "b".
Proof. discriminate. Qed.

(** C3: the transformer of [add_pod_labels(L)] is additive-only: it returns a
    task whose labels keep every existing entry as it was, and take the value
    of [L] at every key that was absent (absent from [L] too: still absent);
    nothing else of the task changes. With the configuration
    [{"a":"1","b":"2"}] on a task labelled [{"a":"9"}] the labels become
    exactly [{"a":"9","b":"2"}]. *)
Theorem add_pod_labels_additive (L : gmap str str) (t : Op) :
  ∃ t', add_pod_labels (Some L) t = Ok t'
    ∧ (∀ k v, pod_labels (base t) !! k = Some v →
              pod_labels (base t') !! k = Some v)
    ∧ (∀ k, pod_labels (base t) !! k = None →
            pod_labels (base t') !! k = L !! k)
    ∧ t' = with_pod_labels t (pod_labels (base t'))
    ∧ (L = <[lit "a" := lit "1"]> {[ lit "b" := lit "2" ]} →
       pod_labels (base t) = {[ lit "a" := lit "9" ]} →
       pod_labels (base t') = <[lit "a" := lit "9"]> {[ lit "b" := lit "2" ]}).
Proof.
  eexists. split; [apply add_pod_labels_union|].
  rewrite pod_labels_with_pod_labels.
  split; [|split; [|split]].
  - intros k v Hk. by rewrite lookup_union, Hk, union_Some_l.
  - intros k Hk. by rewrite lookup_union, Hk, (left_id None _).
  - done.
  - intros -> ->. pose proof lit_a_b as Hab.
    apply map_eq. intros k. rewrite lookup_union.
    destruct (decide (k = lit "a")) as [->|Ha].
    + by rewrite lookup_singleton_eq, !lookup_insert_eq.
    + rewrite lookup_singleton_ne, (left_id None _) by done.
      by rewrite !lookup_insert_ne by done.
Qed.

(** C8: the static label injector is idempotent: a second application of the
    transformer of [add_pod_labels(L)] returns the task the first one
    returned, and the first one overwrites no entry. *)
Theorem add_pod_labels_idempotent (L : gmap str str) (t : Op) :
  ∃ t1, add_pod_labels (Some L) t = Ok t1
    ∧ add_pod_labels (Some L) t1 = Ok t1
    ∧ (add_pod_labels (Some L) t ≫= add_pod_labels (Some L))
      = add_pod_labels (Some L) t
    ∧ ∀ k v, pod_labels (base t) !! k = Some v →
             pod_labels (base t1) !! k = Some v.
Proof.
  assert (add_pod_labels (Some L)
            (with_pod_labels t (pod_labels (base t) ∪ L))
          = Ok (with_pod_labels t (pod_labels (base t) ∪ L))) as Hagain.
  { rewrite add_pod_labels_union, with_pod_labels_twice,
      pod_labels_with_pod_labels.
    do 2 f_equal. rewrite <-(assoc_L (∪)). f_equal. apply (idemp_L (∪)). }
  eexists. split; [apply add_pod_labels_union|].
  split; [done|]. split.
  - rewrite add_pod_labels_union. exact Hagain.
  - intros k v Hk.
    by rewrite pod_labels_with_pod_labels, lookup_union, Hk, union_Some_l.
Qed.

(** ** The pod-env injector *)

Lemma add_pod_env_flag (b : BaseOp) :
  negb (bool_decide (pod_labels b = ∅))
  && bool_decide (pod_labels b !! lit "add-pod-env" = Some (lit "true"))
  = bool_decide (pod_labels b !! lit "add-pod-env" = Some (lit "true")).
Proof.
  case_bool_decide as He; [|done]. simpl. symmetry.
  apply bool_decide_eq_false_2. by rewrite He, lookup_empty.
Qed.

(** C4: [add_pod_env] attaches the two descriptors [KFP_POD_NAME] (from
    [metadata.name]) and [KFP_NAMESPACE] (from [metadata.namespace]), in this
    order and after the descriptors already there, exactly when the task is
    container-backed and its label ["add-pod-env"] is ["true"]; every other
    task is returned unchanged. *)
Theorem add_pod_env_spec (op : Op) :
  (∃ b c, op = ContainerOp b c
     ∧ pod_labels b !! lit "add-pod-env" = Some (lit "true")
     ∧ add_pod_env op
       = ContainerOp b
           {| env := env c ++
                [ {| name := "KFP_POD_NAME";
                     value_from :=
                       {| field_ref := {| field_path := "metadata.name" |} |} |};
                  {| name := "KFP_NAMESPACE";
                     value_from :=
                       {| field_ref :=
                            {| field_path := "metadata.namespace" |} |} |} ] |}
     ∧ add_pod_env op ≠ op)
  ∨ ((∀ b c, op = ContainerOp b c →
             pod_labels b !! lit "add-pod-env" ≠ Some (lit "true"))
     ∧ add_pod_env op = op).
Proof.
  destruct op as [b c|b]; simpl.
  - rewrite add_pod_env_flag. case_bool_decide as Hflag.
    + left. exists b, c. split; [done|]. split; [done|].
      unfold add_env_variable, field_env_var. simpl.
      rewrite <-(assoc_L (++)). split; [done|].
      intros Heq. injection Heq as Heq. apply (f_equal env) in Heq.
      apply (f_equal length) in Heq. simpl in Heq.
      rewrite length_app in Heq. simpl in Heq. lia.
    + right. split; [|done]. by intros ?? [= <- <-].
  - right. split; [|done]. intros ?? [=].
Qed.

(** ** Stripping, splitting and cleaning *)

Section Strip.
Implicit Types (chars s : str) (c : ascii).

Lemma lstrip_suffix chars s : PyStr.lstrip chars s `suffix_of` s.
Proof.
  induction s as [|c s IH]; simpl; [done|].
  case_bool_decide; [by apply suffix_cons_r|done].
Qed.

Lemma lstrip_head chars s c :
  head (PyStr.lstrip chars s) = Some c → c ∉ chars.
Proof.
  induction s as [|c' s IH]; simpl; [done|].
  case_bool_decide as Hc; [done|]. simpl. by intros [= <-].
Qed.

Lemma rstrip_prefix chars s : PyStr.rstrip chars s `prefix_of` s.
Proof.
  unfold PyStr.rstrip.
  destruct (lstrip_suffix chars (reverse s)) as [k Hk].
  exists (reverse k). apply (inj reverse).
  by rewrite reverse_app, !reverse_involutive.
Qed.

Lemma rstrip_last chars s c :
  last (PyStr.rstrip chars s) = Some c → c ∉ chars.
Proof. unfold PyStr.rstrip. rewrite last_reverse. apply lstrip_head. Qed.

Lemma strip_last chars s c :
  last (PyStr.strip chars s) = Some c → c ∉ chars.
Proof. apply rstrip_last. Qed.

Lemma strip_head chars s c :
  head (PyStr.strip chars s) = Some c → c ∉ chars.
Proof.
  unfold PyStr.strip. intros Hc.
  destruct (rstrip_prefix chars (PyStr.lstrip chars s)) as [k Hk].
  apply (lstrip_head chars s). rewrite Hk.
  by destruct (PyStr.rstrip chars (PyStr.lstrip chars s)).
Qed.

Lemma prefix_is_sublist (s1 s2 : str) : s1 `prefix_of` s2 → s1 `sublist_of` s2.
Proof. intros [k ->]. by apply sublist_inserts_r. Qed.

Lemma suffix_is_sublist (s1 s2 : str) : s1 `suffix_of` s2 → s1 `sublist_of` s2.
Proof. intros [k ->]. by apply sublist_inserts_l. Qed.

Lemma strip_sublist chars s : PyStr.strip chars s `sublist_of` s.
Proof.
  unfold PyStr.strip. etrans.
  - apply prefix_is_sublist, rstrip_prefix.
  - apply suffix_is_sublist, lstrip_suffix.
Qed.

Lemma split_nonempty sep n s : PyStr.split sep n s ≠ [].
Proof.
  revert n. induction s as [|c s IH]; intros [|n]; simpl; try done.
  case_bool_decide; [done|]. by destruct (PyStr.split sep (S n) s).
Qed.

Lemma split_last sep n s : ∃ field, py_last (PyStr.split sep n s) = Ok field.
Proof.
  unfold py_last.
  destruct (last (PyStr.split sep n s)) as [field|] eqn:Hl; [by exists field|].
  apply last_None in Hl. by apply split_nonempty in Hl.
Qed.

Lemma re_sub_char pattern c s :
  PyStr.re_sub pattern [c] s = (λ x, if pattern x then c else x) <$> s.
Proof.
  unfold PyStr.re_sub. induction s as [|x s IH]; [done|].
  rewrite bind_cons, fmap_cons, IH. by destruct (pattern x).
Qed.

End Strip.

(** ** Label syntax of the cleaned origin path *)

Lemma label_char_alphabet c :
  label_char c = bool_decide (c ∈ label_alphabet).
Proof.
  destruct c as [[] [] [] [] [] [] [] []]; vm_compute; reflexivity.
Qed.

Lemma cleaned_alphabet s :
  Forall (λ c, c ∈ label_alphabet) (PyStr.re_sub not_label_char "." s).
Proof.
  change (lit ".") with ["."%char]. rewrite re_sub_char.
  apply Forall_fmap, Forall_forall. intros c _. simpl.
  unfold not_label_char. destruct (label_char c) eqn:Hc; simpl.
  - rewrite label_char_alphabet in Hc. by apply bool_decide_eq_true_1 in Hc.
  - by apply (bool_decide_eq_true_1 _).
Qed.

Lemma origin_path_label_total origin_path :
  ∃ v, origin_path_label origin_path = Ok v ∧ is_label_value v = true.
Proof.
  unfold origin_path_label.
  destruct (split_last "/" 7 origin_path) as [field ->]. simpl.
  eexists. split; [done|].
  set (cleaned := PyStr.re_sub not_label_char "." field).
  pose proof (cleaned_alphabet field) as Hall. fold cleaned in Hall.
  set (cut := PyStr.slice_from cleaned (-63)).
  assert (cut `suffix_of` cleaned) as Hcut.
  { unfold cut. rewrite slice_from_last_63. apply suffix_drop. }
  assert (length cut ≤ 63) as Hlen.
  { unfold cut. rewrite slice_from_last_63, length_drop. lia. }
  pose proof (strip_sublist "-_." cut) as Hsub.
  unfold is_label_value. repeat (apply andb_true_intro; split).
  - apply forallb_forall. intros c Hc. apply bool_decide_eq_true_2.
    apply list_elem_of_In in Hc.
    rewrite Forall_forall in Hall. apply Hall.
    eapply elem_of_sublist; [exact Hc|].
    etrans; [exact Hsub|]. by apply suffix_is_sublist.
  - apply bool_decide_eq_true_2. apply sublist_length in Hsub.
    exact (Nat.le_trans _ _ _ Hsub Hlen).
  - destruct (head _) as [c|] eqn:Hh; [|done].
    apply negb_true_iff, bool_decide_eq_false_2. by eapply strip_head.
  - destruct (last _) as [c|] eqn:Hl; [|done].
    apply negb_true_iff, bool_decide_eq_false_2. by eapply strip_last.
Qed.

(** ** The origin-derived label injector *)

Section OriginLabels.
Implicit Types (task : Op) (cr : ComponentReference) (u d v : str).

Lemma truthy_Some (o : option str) u :
  PyStr.truthy o = Some u ↔ o = Some u ∧ u ≠ [].
Proof.
  destruct o as [[|c s]|]; simpl; split;
    try (intros [= <-]); try (intros [[= <-] ?]); done.
Qed.

Lemma label_keys_differ : COMPONENT_PATH_LABEL_KEY ≠ COMPONENT_DIGEST_LABEL_KEY.
Proof. discriminate. Qed.

Lemma oob_no_ref task :
  _component_ref (base task) = None →
  add_name_for_oob_components task = Ok task.
Proof.
  intros Href. unfold add_name_for_oob_components, _add_name_for_oob_components.
  by rewrite Href.
Qed.

Lemma oob_no_url task cr :
  _component_ref (base task) = Some cr →
  PyStr.truthy (url cr) = None →
  add_name_for_oob_components task = Ok (add_digest_label cr task).
Proof.
  intros Href Hurl. by oob_run Href Hurl.
Qed.

Lemma oob_untrusted task cr u :
  _component_ref (base task) = Some cr →
  PyStr.truthy (url cr) = Some u →
  PyStr.startswith (origin_path_of_url u) _OOB_COMPONENT_PATH_PREFIX = false →
  add_name_for_oob_components task = Ok task.
Proof.
  intros Href Hurl Hpre. oob_run Href Hurl. by rewrite Hpre.
Qed.

Lemma oob_trusted task cr u :
  _component_ref (base task) = Some cr →
  PyStr.truthy (url cr) = Some u →
  PyStr.startswith (origin_path_of_url u) _OOB_COMPONENT_PATH_PREFIX = true →
  ∃ v, origin_path_label (origin_path_of_url u) = Ok v
    ∧ is_label_value v = true
    ∧ add_name_for_oob_components task
      = Ok (add_digest_label cr
              (add_pod_label task COMPONENT_PATH_LABEL_KEY v)).
Proof.
  intros Href Hurl Hpre.
  destruct (origin_path_label_total (origin_path_of_url u)) as (v & Hv & Hok).
  exists v. split; [done|]. split; [done|].
  oob_run Href Hurl. by rewrite Hpre, Hv.
Qed.

Lemma digest_label_lookup task cr d :
  PyStr.truthy (digest cr) = Some d →
  pod_labels (base (add_digest_label cr task)) !! COMPONENT_DIGEST_LABEL_KEY
  = Some (take 63 d).
Proof.
  intros Hd. unfold add_digest_label. rewrite Hd.
  by rewrite pod_labels_add_pod_label, lookup_insert_eq, slice_to_63.
Qed.

Lemma digest_label_other task cr k :
  k ≠ COMPONENT_DIGEST_LABEL_KEY →
  pod_labels (base (add_digest_label cr task)) !! k
  = pod_labels (base task) !! k.
Proof.
  intros Hk. unfold add_digest_label.
  destruct (PyStr.truthy (digest cr)); [|done].
  by rewrite pod_labels_add_pod_label, lookup_insert_ne.
Qed.

(** The transformer never raises. *)
Lemma oob_total task : ∃ t', add_name_for_oob_components task = Ok t'.
Proof.
  destruct (_component_ref (base task)) as [cr|] eqn:Href;
    [|by rewrite oob_no_ref; eauto].
  destruct (PyStr.truthy (url cr)) as [u|] eqn:Hurl;
    [|by erewrite oob_no_url; eauto].
  destruct (PyStr.startswith (origin_path_of_url u) _OOB_COMPONENT_PATH_PREFIX)
    eqn:Hpre.
  - destruct (oob_trusted task cr u) as (v & _ & _ & ->); eauto.
  - erewrite oob_untrusted; eauto.
Qed.

End OriginLabels.

Lemma oob_url_example_trusted :
  PyStr.startswith (origin_path_of_url oob_url_example)
    _OOB_COMPONENT_PATH_PREFIX = true.
Proof. vm_compute. reflexivity. Qed.

Lemma oob_url_example_label :
  origin_path_label (origin_path_of_url oob_url_example) = Ok (lit "foo.bar").
Proof. vm_compute. reflexivity. Qed.

(** C1, as the code has it: for a task whose [_component_ref.url] is
    ["https://raw.githubusercontent.com/kubeflow/pipelines/master/components/foo/bar/component.yaml"]
    the transformer sets the label
    ["pipelines.kubeflow.org/component_origin_path"] to ["foo.bar"]: the last
    of at most eight fields is ["foo/bar"], and its ['/'] is cleaned to
    ['.']. *)
Theorem oob_url_example_origin_label (task : Op) (cr : ComponentReference) :
  _component_ref (base task) = Some cr →
  url cr = Some oob_url_example →
  ∃ t', add_name_for_oob_components task = Ok t'
    ∧ pod_labels (base t') !! COMPONENT_PATH_LABEL_KEY = Some (lit "foo.bar").
Proof.
  intros Href Hurl.
  destruct (oob_trusted task cr oob_url_example Href) as (v & Hv & _ & Hrun).
  - by rewrite Hurl.
  - apply oob_url_example_trusted.
  - rewrite oob_url_example_label in Hv. injection Hv as <-.
    eexists. split; [exact Hrun|].
    rewrite digest_label_other by apply label_keys_differ.
    by rewrite pod_labels_add_pod_label, lookup_insert_eq.
Qed.

Lemma oob_url_example_origin_label_witness :
  ∃ t', add_name_for_oob_components (oob_task ∅ (Some oob_url_example) None)
        = Ok t'
    ∧ pod_labels (base t') !! COMPONENT_PATH_LABEL_KEY = Some (lit "foo.bar").
Proof.
  apply (oob_url_example_origin_label
           (oob_task ∅ (Some oob_url_example) None)
           {| url := Some oob_url_example; digest := None |});
    reflexivity.
Defined.

(** C1, as the spec words it, fails: on the url of the example the label is
    ["foo.bar"], which is not ["bar"]. *)
Lemma oob_url_example_not_bar :
  add_name_for_oob_components (oob_task ∅ (Some oob_url_example) None)
  = Ok (add_pod_label (oob_task ∅ (Some oob_url_example) None)
          COMPONENT_PATH_LABEL_KEY (lit "foo.bar"))
  ∧ pod_labels
      (base (add_pod_label (oob_task ∅ (Some oob_url_example) None)
               COMPONENT_PATH_LABEL_KEY (lit "foo.bar")))
    !! COMPONENT_PATH_LABEL_KEY = Some (lit "foo.bar")
  ∧ lit "foo.bar" ≠ lit "bar".
Proof.
  split; [|split].
  - destruct (oob_trusted (oob_task ∅ (Some oob_url_example) None)
                {| url := Some oob_url_example; digest := None |}
                oob_url_example eq_refl eq_refl oob_url_example_trusted)
      as (v & Hv & _ & ->).
    rewrite oob_url_example_label in Hv. by injection Hv as <-.
  - by rewrite pod_labels_add_pod_label, lookup_insert_eq.
  - discriminate.
Qed.

(** C2: when the url of the component reference is present (neither [None]
    nor empty) and the origin path derived from it does not start with the
    trusted prefix, the transformer returns the task as it received it: no
    origin label and no digest label is added, whatever the digest. *)
Theorem untrusted_url_no_label (task : Op) (cr : ComponentReference) (u : str) :
  _component_ref (base task) = Some cr →
  url cr = Some u →
  u ≠ [] →
  PyStr.startswith (origin_path_of_url u) _OOB_COMPONENT_PATH_PREFIX = false →
  add_name_for_oob_components task = Ok task.
Proof.
  intros Href Hurl Hu Hpre. apply (oob_untrusted task cr u); [done| |done].
  by apply truthy_Some.
Qed.

Lemma untrusted_url_no_label_witness :
  add_name_for_oob_components
    (oob_task ∅ (Some (lit "https://example.com/x/component.yaml"))
       (Some (lit "abcdef0123456789")))
  = Ok (oob_task ∅ (Some (lit "https://example.com/x/component.yaml"))
          (Some (lit "abcdef0123456789"))).
Proof.
  apply (untrusted_url_no_label _
           {| url := Some (lit "https://example.com/x/component.yaml");
              digest := Some (lit "abcdef0123456789") |}
           (lit "https://example.com/x/component.yaml")).
  - reflexivity.
  - reflexivity.
  - discriminate.
  - vm_compute. reflexivity.
Defined.

(** C5: when the digest of the component reference is present (neither
    [None] nor empty) and the url, if present, passes the prefix check, the
    transformer sets the label ["pipelines.kubeflow.org/component_digest"] to
    the first 63 characters of the digest, as they are. *)
Theorem digest_label_first_63 (task : Op) (cr : ComponentReference) (d : str) :
  _component_ref (base task) = Some cr →
  digest cr = Some d →
  d ≠ [] →
  (∀ u, url cr = Some u → u ≠ [] →
        PyStr.startswith (origin_path_of_url u) _OOB_COMPONENT_PATH_PREFIX
        = true) →
  ∃ t', add_name_for_oob_components task = Ok t'
    ∧ pod_labels (base t') !! COMPONENT_DIGEST_LABEL_KEY = Some (take 63 d).
Proof.
  intros Href Hd Hne Hurl.
  assert (PyStr.truthy (digest cr) = Some d) as Hdigest by by apply truthy_Some.
  destruct (PyStr.truthy (url cr)) as [u|] eqn:Hu.
  - apply truthy_Some in Hu as Hu'. destruct Hu' as [Hu1 Hu2].
    destruct (oob_trusted task cr u Href Hu (Hurl u Hu1 Hu2))
      as (v & _ & _ & ->).
    eexists. split; [done|]. by apply digest_label_lookup.
  - rewrite (oob_no_url task cr Href Hu).
    eexists. split; [done|]. by apply digest_label_lookup.
Qed.

Lemma digest_label_first_63_witness :
  length digest_example = 70
  ∧ ∃ t', add_name_for_oob_components
            (oob_task ∅ (Some oob_url_example) (Some digest_example)) = Ok t'
      ∧ pod_labels (base t') !! COMPONENT_DIGEST_LABEL_KEY
        = Some (lit "abcdef012345678900000000000000000000000000000000000000000000000").
Proof.
  split; [reflexivity|].
  apply (digest_label_first_63
           (oob_task ∅ (Some oob_url_example) (Some digest_example))
           {| url := Some oob_url_example; digest := Some digest_example |}
           digest_example).
  - reflexivity.
  - reflexivity.
  - discriminate.
  - intros u [= <-] _. vm_compute. reflexivity.
Defined.

(** C6, as the code has it: a label the transformer writes (an entry of the
    returned task's labels that the task did not have with this value) is
    either the origin-path label, whose value satisfies the label syntax, or
    the digest label, whose value is the first 63 characters of the digest as
    given and so has at most 63 characters. *)
Theorem oob_written_labels (task t' : Op) (k v : str) :
  add_name_for_oob_components task = Ok t' →
  pod_labels (base t') !! k = Some v →
  pod_labels (base task) !! k ≠ Some v →
  (k = COMPONENT_PATH_LABEL_KEY ∧ is_label_value v = true)
  ∨ (k = COMPONENT_DIGEST_LABEL_KEY ∧ length v ≤ 63
     ∧ ∃ cr d, _component_ref (base task) = Some cr
               ∧ digest cr = Some d ∧ v = take 63 d).
Proof.
  intros Hrun Hnew Hold.
  destruct (_component_ref (base task)) as [cr|] eqn:Href;
    [|rewrite oob_no_ref in Hrun by done; by injection Hrun as <-].
  assert (∀ t, pod_labels (base (add_digest_label cr t)) !! k = Some v →
               pod_labels (base t) !! k = Some v ∨
               (k = COMPONENT_DIGEST_LABEL_KEY ∧ length v ≤ 63
                ∧ ∃ d, digest cr = Some d ∧ v = take 63 d))
    as Hdigest.
  { intros t Hk. unfold add_digest_label in Hk.
    destruct (PyStr.truthy (digest cr)) as [d|] eqn:Hd; [|by left].
    rewrite pod_labels_add_pod_label, slice_to_63 in Hk.
    destruct (decide (k = COMPONENT_DIGEST_LABEL_KEY)) as [->|Hk'].
    - rewrite lookup_insert_eq in Hk. injection Hk as <-.
      apply truthy_Some in Hd as [Hd _]. right.
      split; [done|]. split; [rewrite length_take; lia|by exists d].
    - rewrite lookup_insert_ne in Hk by done. by left. }
  destruct (PyStr.truthy (url cr)) as [u|] eqn:Hurl.
  - destruct (PyStr.startswith (origin_path_of_url u)
                _OOB_COMPONENT_PATH_PREFIX) eqn:Hpre.
    + destruct (oob_trusted task cr u Href Hurl Hpre) as (lbl & _ & Hok & Heq).
      rewrite Heq in Hrun. injection Hrun as <-.
      destruct (Hdigest _ Hnew) as [Hk|(-> & Hlen & d & Hd & ->)];
        [|right; split; [done|]; split; [done|]; by exists cr, d].
      rewrite pod_labels_add_pod_label in Hk.
      destruct (decide (k = COMPONENT_PATH_LABEL_KEY)) as [->|Hk'].
      * rewrite lookup_insert_eq in Hk. injection Hk as <-. by left.
      * by rewrite lookup_insert_ne in Hk.
    + rewrite (oob_untrusted task cr u Href Hurl Hpre) in Hrun.
      by injection Hrun as <-.
  - rewrite (oob_no_url task cr Href Hurl) in Hrun. injection Hrun as <-.
    destruct (Hdigest _ Hnew) as [Hk|(-> & Hlen & d & Hd & ->)];
      [done|right; split; [done|]; split; [done|]; by exists cr, d].
Qed.

Lemma oob_url_unclean_run :
  add_name_for_oob_components (oob_task ∅ (Some oob_url_unclean) None)
  = Ok (add_pod_label (oob_task ∅ (Some oob_url_unclean) None)
          COMPONENT_PATH_LABEL_KEY (lit "foo.bar")).
Proof.
  assert (PyStr.startswith (origin_path_of_url oob_url_unclean)
            _OOB_COMPONENT_PATH_PREFIX = true) as Hpre
    by (vm_compute; reflexivity).
  assert (origin_path_label (origin_path_of_url oob_url_unclean)
          = Ok (lit "foo.bar")) as Hlabel by (vm_compute; reflexivity).
  destruct (oob_trusted (oob_task ∅ (Some oob_url_unclean) None)
              {| url := Some oob_url_unclean; digest := None |}
              oob_url_unclean eq_refl eq_refl Hpre) as (v & Hv & _ & ->).
  rewrite Hlabel in Hv. by injection Hv as <-.
Qed.

Lemma oob_written_labels_witness :
  (COMPONENT_PATH_LABEL_KEY = COMPONENT_PATH_LABEL_KEY
   ∧ is_label_value (lit "foo.bar") = true)
  ∨ (COMPONENT_PATH_LABEL_KEY = COMPONENT_DIGEST_LABEL_KEY
     ∧ length (lit "foo.bar") ≤ 63
     ∧ ∃ cr d,
         _component_ref (base (oob_task ∅ (Some oob_url_unclean) None))
         = Some cr
         ∧ digest cr = Some d ∧ lit "foo.bar" = take 63 d).
Proof.
  apply (oob_written_labels
           (oob_task ∅ (Some oob_url_unclean) None)
           (add_pod_label (oob_task ∅ (Some oob_url_unclean) None)
              COMPONENT_PATH_LABEL_KEY (lit "foo.bar"))
           COMPONENT_PATH_LABEL_KEY (lit "foo.bar")).
  - exact oob_url_unclean_run.
  - rewrite pod_labels_add_pod_label. apply lookup_insert_eq.
  - simpl. rewrite lookup_empty. discriminate.
Defined.

(** C6, as the spec words it, fails on the digest label: the digest
    ["sha256:abc."] is written as it is, with a [':'] and a trailing ['.']. *)
Lemma digest_label_unclean :
  add_name_for_oob_components (oob_task ∅ None (Some (lit "sha256:abc.")))
  = Ok (add_pod_label (oob_task ∅ None (Some (lit "sha256:abc.")))
          COMPONENT_DIGEST_LABEL_KEY (lit "sha256:abc."))
  ∧ pod_labels
      (base (add_pod_label (oob_task ∅ None (Some (lit "sha256:abc.")))
               COMPONENT_DIGEST_LABEL_KEY (lit "sha256:abc.")))
    !! COMPONENT_DIGEST_LABEL_KEY = Some (lit "sha256:abc.")
  ∧ pod_labels (base (oob_task ∅ None (Some (lit "sha256:abc."))))
    !! COMPONENT_DIGEST_LABEL_KEY = None
  ∧ is_label_value (lit "sha256:abc.") = false.
Proof.
  split; [|split; [|split]].
  - by rewrite (oob_no_url _ {| url := None; digest := Some (lit "sha256:abc.") |}).
  - by rewrite pod_labels_add_pod_label, lookup_insert_eq.
  - apply lookup_empty.
  - vm_compute. reflexivity.
Qed.

(** ** No-op behaviour *)

Lemma add_pod_env_flag_absent (op : Op) :
  pod_labels (base op) !! lit "add-pod-env" ≠ Some (lit "true") →
  add_pod_env op = op.
Proof.
  intros Hflag. destruct op as [b c|b]; simpl; [|done].
  rewrite add_pod_env_flag. by rewrite bool_decide_eq_false_2.
Qed.

Lemma add_pod_labels_empty (task : Op) :
  add_pod_labels (Some ∅) task = Ok task.
Proof.
  by rewrite add_pod_labels_union, (right_id_L ∅ (∪)), with_pod_labels_id.
Qed.

(** C7: the no-op cases of the three transformers, and the one that is not a
    no-op: [add_pod_env] returns a task without the flag unchanged, the
    transformer of [add_pod_labels] with an empty mapping and the transformer
    of [add_name_for_oob_components] on a task without [_component_ref]
    return the task unchanged and raise nothing; the transformer of
    [add_pod_labels()] (the default, absent [labels]) raises
    [AttributeError] on every task. *)
Theorem noop_cases_and_default_labels :
  (∀ op, pod_labels (base op) !! lit "add-pod-env" = None →
         add_pod_env op = op)
  ∧ (∀ task, add_pod_labels (Some ∅) task = Ok task)
  ∧ (∀ task, _component_ref (base task) = None →
             add_name_for_oob_components task = Ok task)
  ∧ (∀ task, ∃ t', add_name_for_oob_components task = Ok t')
  ∧ (∀ task, add_pod_labels None task = Raise AttributeError).
Proof.
  split; [|split; [|split; [|split]]].
  - intros op Hflag. apply add_pod_env_flag_absent. by rewrite Hflag.
  - apply add_pod_labels_empty.
  - apply oob_no_ref.
  - apply oob_total.
  - done.
Qed.

(** * Further properties *)

(** ** The suffix helper and the origin path *)

Section OriginPath.
Implicit Types (chars s t u : str) (c : ascii).

Lemma remove_suffix_cases s t :
  _remove_suffix s t = s
  ∨ (t ≠ [] ∧ s = _remove_suffix s t ++ t).
Proof.
  destruct (decide (t = [])) as [->|Ht]; [left; apply remove_suffix_nil|].
  destruct (decide (t `suffix_of` s)) as [[p ->]|Hno].
  - right. split; [done|]. by rewrite remove_suffix_app.
  - left. by apply remove_suffix_id.
Qed.

Lemma remove_suffix_prefix s t : _remove_suffix s t `prefix_of` s.
Proof.
  destruct (remove_suffix_cases s t) as [->|[_ Heq]]; [done|].
  by exists t.
Qed.

Lemma lstrip_app_keep chars s t c :
  head t = Some c → c ∉ chars →
  PyStr.lstrip chars (s ++ t) = PyStr.lstrip chars s ++ t.
Proof.
  intros Ht Hc. induction s as [|x s IH]; simpl.
  - destruct t as [|y t]; [done|]. simpl in *. injection Ht as ->.
    by rewrite bool_decide_eq_false_2.
  - by case_bool_decide.
Qed.

Lemma rstrip_app_keep chars s t c :
  last s = Some c → c ∉ chars →
  PyStr.rstrip chars (s ++ t) = s ++ PyStr.rstrip chars t.
Proof.
  intros Hs Hc. unfold PyStr.rstrip.
  rewrite reverse_app, (lstrip_app_keep chars _ (reverse s) c).
  - by rewrite reverse_app, reverse_involutive.
  - by rewrite head_reverse.
  - done.
Qed.

Lemma rstrip_all chars s :
  Forall (λ c, c ∈ chars) s → PyStr.rstrip chars s = [].
Proof.
  intros Hall. unfold PyStr.rstrip.
  apply Forall_reverse in Hall.
  induction Hall as [|c l Hc _ IH]; [done|]. simpl.
  by rewrite bool_decide_eq_true_2.
Qed.

Lemma lstrip_all chars s :
  Forall (λ c, c ∈ chars) s → PyStr.lstrip chars s = [].
Proof.
  induction 1 as [|c l Hc _ IH]; [done|]. simpl.
  by rewrite bool_decide_eq_true_2.
Qed.

Lemma origin_path_prefix u : origin_path_of_url u `prefix_of` u.
Proof.
  unfold origin_path_of_url. etrans; [apply rstrip_prefix|].
  apply remove_suffix_prefix.
Qed.

Lemma prefix_last_char :
  last _OOB_COMPONENT_PATH_PREFIX = Some "s"%char.
Proof. reflexivity. Qed.

(** No character of ["component.yaml"] is the last one of the prefix. *)
Lemma suffix_without_s : "s"%char ∉ lit "component.yaml".
Proof. apply (bool_decide_eq_false_1 _). reflexivity. Qed.

Lemma remove_suffix_keeps_prefix u :
  _OOB_COMPONENT_PATH_PREFIX `prefix_of` u →
  _OOB_COMPONENT_PATH_PREFIX `prefix_of` _remove_suffix u "component.yaml".
Proof.
  intros [x Hx].
  destruct (remove_suffix_cases u "component.yaml") as [->|[_ Heq]];
    [by exists x|].
  set (p := _remove_suffix u "component.yaml") in *.
  rewrite Hx in Heq. apply app_eq_inv in Heq as [(k & Hk1 & Hk2)|(k & -> & _)];
    [|by exists k].
  destruct (decide (k = [])) as [->|Hne].
  { rewrite (right_id_L [] (++)) in Hk1. by rewrite Hk1. }
  exfalso. apply suffix_without_s. rewrite Hk2.
  apply elem_of_app. left.
  pose proof prefix_last_char as Hlast. rewrite Hk1 in Hlast.
  rewrite last_app in Hlast.
  destruct (last k) as [c|] eqn:Hc; [|by apply last_None in Hc].
  injection Hlast as ->. by apply last_Some_elem_of.
Qed.

Lemma rstrip_keeps_prefix s :
  _OOB_COMPONENT_PATH_PREFIX `prefix_of` s →
  _OOB_COMPONENT_PATH_PREFIX `prefix_of` PyStr.rstrip "/" s.
Proof.
  intros [x ->].
  rewrite (rstrip_app_keep _ _ _ "s"%char); [by eexists|reflexivity|].
  apply (bool_decide_eq_false_1 _). reflexivity.
Qed.

End OriginPath.

(** X1: [_remove_suffix] only ever cuts at the end: its result is a prefix of
    the string, and it is as long as the string or shorter by exactly the
    length of the suffix. *)
Theorem remove_suffix_prefix_length (s t : str) :
  _remove_suffix s t `prefix_of` s
  ∧ (length (_remove_suffix s t) = length s
     ∨ length (_remove_suffix s t) + length t = length s).
Proof.
  split; [apply remove_suffix_prefix|].
  destruct (remove_suffix_cases s t) as [->|[_ Heq]]; [by left|].
  right. apply (f_equal length) in Heq. by rewrite length_app in Heq.
Qed.

(** X2: stripping ["component.yaml"] and trailing ['/'] never decides the
    prefix check: the origin path starts with the catalog prefix exactly when
    the url itself does. The check is a plain [startswith], so a url that
    continues the prefix with other characters passes as well. *)
Theorem trust_check_iff_url_prefix (u : str) :
  PyStr.startswith (origin_path_of_url u) _OOB_COMPONENT_PATH_PREFIX = true
  ↔ _OOB_COMPONENT_PATH_PREFIX `prefix_of` u.
Proof.
  unfold PyStr.startswith. rewrite bool_decide_eq_true. split.
  - intros Hpre. etrans; [exact Hpre|]. apply origin_path_prefix.
  - intros Hpre. unfold origin_path_of_url.
    by apply rstrip_keeps_prefix, remove_suffix_keeps_prefix.
Qed.

(** ** The last of at most eight fields *)

Section Fields.
Implicit Types (s field ref dir rest : str) (sep c : ascii).

Lemma split_zero sep s : PyStr.split sep 0 s = [s].
Proof. by destruct s. Qed.

Lemma split_field sep n field s :
  sep ∉ field →
  PyStr.split sep (S n) (field ++ sep :: s) = field :: PyStr.split sep n s.
Proof.
  induction field as [|c field IH]; intros Hsep.
  - simpl. by rewrite bool_decide_eq_true_2.
  - apply not_elem_of_cons in Hsep as [Hc Hsep].
    change ((c :: field) ++ sep :: s) with (c :: (field ++ sep :: s)).
    cbn [PyStr.split]. rewrite bool_decide_eq_false_2 by done.
    fold (PyStr.split sep (S n) (field ++ sep :: s)). by rewrite IH.
Qed.

Lemma origin_path_label_catalog ref dir rest :
  "/"%char ∉ ref → "/"%char ∉ dir →
  origin_path_label
    (_OOB_COMPONENT_PATH_PREFIX ++ lit "/" ++ ref ++ lit "/" ++ dir
       ++ lit "/" ++ rest)
  = Ok (PyStr.strip "-_."
          (PyStr.slice_from (PyStr.re_sub not_label_char "." rest) (-63))).
Proof.
  intros Href Hdir. unfold origin_path_label.
  change (_OOB_COMPONENT_PATH_PREFIX ++ lit "/" ++ ref ++ lit "/" ++ dir
            ++ lit "/" ++ rest)
    with (lit "https:" ++ "/"%char ::
            (lit "" ++ "/"%char ::
               (lit "raw.githubusercontent.com" ++ "/"%char ::
                  (lit "kubeflow" ++ "/"%char ::
                     (lit "pipelines" ++ "/"%char ::
                        (ref ++ "/"%char :: (dir ++ "/"%char :: rest))))))).
  rewrite !split_field
    by first [assumption | apply (bool_decide_eq_false_1 _); reflexivity].
  by rewrite split_zero.
Qed.

Lemma cleaned_of_punctuation field :
  Forall (λ c, label_char c = true → c ∈ lit "-_.") field →
  Forall (λ c, c ∈ lit "-_.") (PyStr.re_sub not_label_char "." field).
Proof.
  intros Hall. change (lit ".") with ["."%char]. rewrite re_sub_char.
  apply Forall_fmap. eapply Forall_impl; [exact Hall|].
  intros c Hc. simpl in *. unfold not_label_char.
  destruct (label_char c); simpl; [by apply Hc|].
  apply (bool_decide_eq_true_1 _). reflexivity.
Qed.

End Fields.

Section Trimming.
Implicit Types (chars s : str).

Lemma lstrip_decompose chars s :
  ∃ l, s = l ++ PyStr.lstrip chars s ∧ Forall (λ x, x ∈ chars) l.
Proof.
  induction s as [|x s (l & Hl & Hall)]; simpl; [by exists []|].
  case_bool_decide as Hx; [|by exists []].
  exists (x :: l). split; [by rewrite Hl at 1|by constructor].
Qed.

Lemma rstrip_decompose chars s :
  ∃ r, s = PyStr.rstrip chars s ++ r ∧ Forall (λ x, x ∈ chars) r.
Proof.
  unfold PyStr.rstrip.
  destruct (lstrip_decompose chars (reverse s)) as (l & Hl & Hall).
  exists (reverse l). split; [|by apply Forall_reverse].
  apply (inj reverse). by rewrite reverse_app, !reverse_involutive.
Qed.

Lemma strip_decompose chars s :
  ∃ l r, s = l ++ PyStr.strip chars s ++ r
    ∧ Forall (λ x, x ∈ chars) l ∧ Forall (λ x, x ∈ chars) r.
Proof.
  unfold PyStr.strip.
  destruct (lstrip_decompose chars s) as (l & Hl & Hall).
  destruct (rstrip_decompose chars (PyStr.lstrip chars s)) as (r & Hr & Halr).
  exists l, r. split; [|done]. by rewrite <-Hr.
Qed.

Lemma re_sub_alphabet s :
  PyStr.re_sub not_label_char "." s
  = (λ x, if bool_decide (x ∈ label_alphabet) then x else "."%char) <$> s.
Proof.
  change (lit ".") with ["."%char]. rewrite re_sub_char.
  apply list_fmap_ext. intros _ x _. unfold not_label_char.
  rewrite label_char_alphabet. by case_bool_decide.
Qed.

End Trimming.

Lemma catalog_url_run
    (task : Op) (cr : ComponentReference) (ref dir rest : str) (c : ascii) :
  _component_ref (base task) = Some cr →
  url cr = Some (_OOB_COMPONENT_PATH_PREFIX ++ lit "/" ++ ref ++ lit "/"
                   ++ dir ++ lit "/" ++ rest ++ lit "/component.yaml") →
  "/"%char ∉ ref → "/"%char ∉ dir →
  last rest = Some c → c ≠ "/"%char →
  ∃ t', add_name_for_oob_components task = Ok t'
    ∧ pod_labels (base t') !! COMPONENT_PATH_LABEL_KEY
      = Some (PyStr.strip "-_."
                (PyStr.slice_from
                   (PyStr.re_sub not_label_char "." rest) (-63))).
Proof.
  intros Hcr Hurl Href Hdir Hlast Hc.
  set (origin := _OOB_COMPONENT_PATH_PREFIX ++ lit "/" ++ ref ++ lit "/"
                   ++ dir ++ lit "/" ++ rest).
  set (u := _OOB_COMPONENT_PATH_PREFIX ++ lit "/" ++ ref ++ lit "/"
              ++ dir ++ lit "/" ++ rest ++ lit "/component.yaml") in *.
  assert (u = (origin ++ lit "/") ++ lit "component.yaml") as Hu.
  { unfold u, origin. rewrite <-!(assoc_L (++)). reflexivity. }
  assert (origin_path_of_url u = origin) as Horigin.
  { unfold origin_path_of_url. rewrite Hu, remove_suffix_app by done.
    rewrite (rstrip_app_keep _ _ _ c).
    - apply (right_id_L [] (++)).
    - unfold origin. rewrite !(assoc_L (++)), last_app. by rewrite Hlast.
    - by intros ->%list_elem_of_singleton. }
  assert (PyStr.truthy (url cr) = Some u) as Htruthy.
  { apply truthy_Some. split; [done|]. rewrite Hu. by destruct origin. }
  destruct (oob_trusted task cr u Hcr Htruthy) as (v & Hv & _ & Hrun).
  { unfold PyStr.startswith. apply bool_decide_eq_true_2.
    rewrite Horigin. by eexists. }
  rewrite Horigin in Hv. unfold origin in Hv.
  rewrite origin_path_label_catalog in Hv by done. injection Hv as <-.
  eexists. split; [exact Hrun|].
  rewrite digest_label_other by apply label_keys_differ.
  by rewrite pod_labels_add_pod_label, lookup_insert_eq.
Qed.

(** The catalog url of a component three directories deep: the label keeps
    all three. *)
Lemma catalog_url_example_label :
  ∃ t', add_name_for_oob_components
          (oob_task ∅
             (Some (lit "https://raw.githubusercontent.com/kubeflow/pipelines/1.0.0/components/gcp/bigquery/query/component.yaml"))
             None) = Ok t'
    ∧ pod_labels (base t') !! COMPONENT_PATH_LABEL_KEY
      = Some (lit "gcp.bigquery.query").
Proof.
  apply (catalog_url_run
           (oob_task ∅
              (Some (lit "https://raw.githubusercontent.com/kubeflow/pipelines/1.0.0/components/gcp/bigquery/query/component.yaml"))
              None)
           {| url := Some (lit "https://raw.githubusercontent.com/kubeflow/pipelines/1.0.0/components/gcp/bigquery/query/component.yaml");
              digest := None |}
           (lit "1.0.0") (lit "components") (lit "gcp/bigquery/query")
           "y"%char).
  - reflexivity.
  - reflexivity.
  - apply (bool_decide_eq_false_1 _). reflexivity.
  - apply (bool_decide_eq_false_1 _). reflexivity.
  - reflexivity.
  - discriminate.
Qed.

(** X3: for a url of the catalog,
    [<prefix>/<ref>/<dir>/<rest>/component.yaml] with no ['/'] in [ref] and
    [dir] and with [rest] non-empty and not ending in ['/'], the origin label
    [v] is made from all of [rest], the whole sub-path below the first
    directory and not only its last segment. Replace every character of
    [rest] outside [[-a-zA-Z0-9_.]] (each ['/'] too) by ['.'] and keep the
    last 63 characters: what is kept is [l ++ v ++ r], where [l] and [r]
    hold only ['-'], ['_'], ['.'] and [v] neither starts nor ends with one
    of them. *)
Theorem catalog_url_origin_label
    (task : Op) (cr : ComponentReference) (ref dir rest : str) (c : ascii) :
  _component_ref (base task) = Some cr →
  url cr = Some (_OOB_COMPONENT_PATH_PREFIX ++ lit "/" ++ ref ++ lit "/"
                   ++ dir ++ lit "/" ++ rest ++ lit "/component.yaml") →
  "/"%char ∉ ref → "/"%char ∉ dir →
  last rest = Some c → c ≠ "/"%char →
  ∃ t' v l r,
    add_name_for_oob_components task = Ok t'
    ∧ pod_labels (base t') !! COMPONENT_PATH_LABEL_KEY = Some v
    ∧ drop (length rest - 63)
        ((λ x, if bool_decide (x ∈ label_alphabet) then x else "."%char)
           <$> rest)
      = l ++ v ++ r
    ∧ Forall (λ x, x ∈ lit "-_.") l
    ∧ Forall (λ x, x ∈ lit "-_.") r
    ∧ (∀ x, head v = Some x → x ∉ lit "-_.")
    ∧ (∀ x, last v = Some x → x ∉ lit "-_.").
Proof.
  intros Hcr Hurl Href Hdir Hlast Hc.
  destruct (catalog_url_run task cr ref dir rest c) as (t' & Hrun & Hlabel);
    try done.
  set (cut := PyStr.slice_from (PyStr.re_sub not_label_char "." rest) (-63))
    in *.
  destruct (strip_decompose "-_." cut) as (l & r & Hcut & Hl & Hr).
  exists t', (PyStr.strip "-_." cut), l, r.
  split; [done|]. split; [done|]. split; [|split; [done|split; [done|]]].
  - rewrite <-Hcut. unfold cut.
    by rewrite slice_from_last_63, re_sub_alphabet, length_fmap.
  - split; intros x; [apply strip_head|apply strip_last].
Qed.

Lemma catalog_url_origin_label_witness :
  ∃ t' v l r,
    add_name_for_oob_components
      (oob_task ∅
         (Some (lit "https://raw.githubusercontent.com/kubeflow/pipelines/1.0.0/components/-gcp/big query/component.yaml"))
         None) = Ok t'
    ∧ pod_labels (base t') !! COMPONENT_PATH_LABEL_KEY = Some v
    ∧ drop (length (lit "-gcp/big query") - 63)
        ((λ x, if bool_decide (x ∈ label_alphabet) then x else "."%char)
           <$> lit "-gcp/big query")
      = l ++ v ++ r
    ∧ Forall (λ x, x ∈ lit "-_.") l
    ∧ Forall (λ x, x ∈ lit "-_.") r
    ∧ (∀ x, head v = Some x → x ∉ lit "-_.")
    ∧ (∀ x, last v = Some x → x ∉ lit "-_.").
Proof.
  apply (catalog_url_origin_label
           (oob_task ∅
              (Some (lit "https://raw.githubusercontent.com/kubeflow/pipelines/1.0.0/components/-gcp/big query/component.yaml"))
              None)
           {| url := Some (lit "https://raw.githubusercontent.com/kubeflow/pipelines/1.0.0/components/-gcp/big query/component.yaml");
              digest := None |}
           (lit "1.0.0") (lit "components") (lit "-gcp/big query")
           "y"%char).
  - reflexivity.
  - reflexivity.
  - apply (bool_decide_eq_false_1 _). reflexivity.
  - apply (bool_decide_eq_false_1 _). reflexivity.
  - reflexivity.
  - discriminate.
Defined.

(** X4: when the last field of the origin path holds no letter and no digit
    (every character of it is outside the class or one of ['-'], ['_'],
    ['.']), the label value derived from it is the empty string. *)
Theorem origin_label_empty (origin_path field : str) :
  py_last (PyStr.split "/" 7 origin_path) = Ok field →
  Forall (λ c, label_char c = true → c ∈ lit "-_.") field →
  origin_path_label origin_path = Ok [].
Proof.
  intros Hfield Hall. unfold origin_path_label. rewrite Hfield. simpl.
  f_equal. unfold PyStr.strip. rewrite lstrip_all; [done|].
  rewrite slice_from_last_63. apply Forall_drop.
  by apply cleaned_of_punctuation.
Qed.

Lemma origin_label_empty_witness :
  origin_path_label
    (lit "https://raw.githubusercontent.com/kubeflow/pipelines/master/components/_ -!")
  = Ok [].
Proof.
  apply (origin_label_empty _ (lit "_ -!")).
  - vm_compute. reflexivity.
  - apply (bool_decide_unpack _). vm_compute. reflexivity.
Defined.

(** ** The origin-derived injector as a set of label writes *)

Section Writes.
Implicit Types (task : Op) (m W L : gmap str str).

Lemma component_ref_with_pod_labels task m :
  _component_ref (base (with_pod_labels task m)) = _component_ref (base task).
Proof. unfold with_pod_labels. by rewrite with_base_base. Qed.

Lemma add_pod_label_with_pod_labels task k v :
  add_pod_label task k v
  = with_pod_labels task (<[k := v]> (pod_labels (base task))).
Proof. done. Qed.

Lemma flag_nonempty m (k v : str) :
  negb (bool_decide (m = ∅)) && bool_decide (m !! k = Some v)
  = bool_decide (m !! k = Some v).
Proof.
  case_bool_decide as He; [|done]. simpl. symmetry.
  apply bool_decide_eq_false_2. by rewrite He, lookup_empty.
Qed.

Lemma add_pod_env_with_pod_labels task m :
  m !! lit "add-pod-env" = pod_labels (base task) !! lit "add-pod-env" →
  add_pod_env (with_pod_labels task m) = with_pod_labels (add_pod_env task) m.
Proof.
  intros Hm. destruct task as [b c|b]; [|done].
  unfold with_pod_labels, with_base, add_pod_env.
  cbn [base pod_labels _component_ref] in *.
  rewrite !flag_nonempty, Hm.
  by destruct (bool_decide (pod_labels b !! lit "add-pod-env" = Some (lit "true"))).
Qed.

Lemma base_add_pod_env task : base (add_pod_env task) = base task.
Proof.
  destruct task as [b c|b]; [|done]. simpl. by destruct (_ && _).
Qed.

(** What the transformer does to a task is decided by the component reference
    alone: it writes a fixed set [W] of labels, under the two keys of this
    module, over the labels of the task. *)
Lemma oob_union (r : option ComponentReference) :
  ∃ W, dom W ⊆ {[COMPONENT_PATH_LABEL_KEY; COMPONENT_DIGEST_LABEL_KEY]}
    ∧ ∀ task, _component_ref (base task) = r →
        add_name_for_oob_components task
        = Ok (with_pod_labels task (W ∪ pod_labels (base task))).
Proof.
  assert (∀ task, Ok task
            =@{result Op} Ok (with_pod_labels task (∅ ∪ pod_labels (base task))))
    as Hsame.
  { intros task. by rewrite (left_id_L ∅ (∪)), with_pod_labels_id. }
  destruct r as [cr|]; [|exists ∅; split; [set_solver|]].
  2: { intros task Href. rewrite oob_no_ref by done. apply Hsame. }
  assert (∃ D, dom D ⊆ {[COMPONENT_DIGEST_LABEL_KEY]}
            ∧ ∀ task,
                add_digest_label cr task
                = with_pod_labels task (D ∪ pod_labels (base task)))
    as (D & HD & Hdigest).
  { unfold add_digest_label.
    destruct (PyStr.truthy (digest cr)) as [d|].
    - exists {[ COMPONENT_DIGEST_LABEL_KEY := PyStr.slice_to d 63 ]}.
      split; [by rewrite dom_singleton_L|]. intros task.
      by rewrite add_pod_label_with_pod_labels, insert_union_singleton_l.
    - exists ∅. split; [set_solver|]. intros task.
      by rewrite (left_id_L ∅ (∪)), with_pod_labels_id. }
  destruct (PyStr.truthy (url cr)) as [u|] eqn:Hurl.
  - destruct (PyStr.startswith (origin_path_of_url u)
                _OOB_COMPONENT_PATH_PREFIX) eqn:Hpre.
    + destruct (origin_path_label_total (origin_path_of_url u))
        as (v & Hv & _).
      exists (D ∪ {[ COMPONENT_PATH_LABEL_KEY := v ]}). split.
      { rewrite dom_union_L, dom_singleton_L. intros k.
        rewrite !elem_of_union, !elem_of_singleton.
        intros [Hk%HD%elem_of_singleton|Hk]; auto. }
      intros task Href.
      destruct (oob_trusted task cr u Href Hurl Hpre) as (v' & Hv' & _ & ->).
      rewrite Hv in Hv'. injection Hv' as <-.
      rewrite Hdigest, add_pod_label_with_pod_labels, with_pod_labels_twice,
        pod_labels_with_pod_labels.
      by rewrite insert_union_singleton_l, (assoc_L (∪)).
    + exists ∅. split; [set_solver|]. intros task Href.
      rewrite (oob_untrusted task cr u) by done. apply Hsame.
  - exists D. split; [set_solver|]. intros task Href.
    by rewrite (oob_no_url task cr), Hdigest.
Qed.

Lemma lookup_outside_writes W m k :
  dom W ⊆ {[COMPONENT_PATH_LABEL_KEY; COMPONENT_DIGEST_LABEL_KEY]} →
  k ≠ COMPONENT_PATH_LABEL_KEY → k ≠ COMPONENT_DIGEST_LABEL_KEY →
  (W ∪ m) !! k = m !! k.
Proof.
  intros HW Hp Hd. rewrite lookup_union.
  assert (W !! k = None) as ->; [|by rewrite (left_id None _)].
  apply not_elem_of_dom. intros Hk%HW.
  apply elem_of_union in Hk as [Hk%elem_of_singleton|Hk%elem_of_singleton];
    done.
Qed.

End Writes.

Lemma pod_env_flag_no_oob_key :
  lit "add-pod-env" ≠ COMPONENT_PATH_LABEL_KEY
  ∧ lit "add-pod-env" ≠ COMPONENT_DIGEST_LABEL_KEY.
Proof. split; discriminate. Qed.

(** X5: the origin-derived injector is idempotent: it always returns a task,
    and run again on that task it returns it unchanged. *)
Theorem oob_idempotent (task : Op) :
  ∃ t1, add_name_for_oob_components task = Ok t1
    ∧ add_name_for_oob_components t1 = Ok t1.
Proof.
  destruct (oob_union (_component_ref (base task))) as (W & _ & HW).
  eexists. split; [by apply HW|].
  rewrite HW by apply component_ref_with_pod_labels.
  rewrite with_pod_labels_twice, pod_labels_with_pod_labels.
  by rewrite (assoc_L (∪)), (idemp_L (∪)).
Qed.

(** X6: the origin-derived injector touches nothing but the two labels
    ["pipelines.kubeflow.org/component_origin_path"] and
    ["pipelines.kubeflow.org/component_digest"]: every other label of the
    returned task is as it was (present with the same value, or absent), no
    label is removed, and the component reference and the container are
    those of the task. *)
Theorem oob_frame (task : Op) :
  ∃ t', add_name_for_oob_components task = Ok t'
    ∧ t' = with_pod_labels task (pod_labels (base t'))
    ∧ (∀ k, k ≠ COMPONENT_PATH_LABEL_KEY → k ≠ COMPONENT_DIGEST_LABEL_KEY →
            pod_labels (base t') !! k = pod_labels (base task) !! k)
    ∧ (∀ k, is_Some (pod_labels (base task) !! k) →
            is_Some (pod_labels (base t') !! k)).
Proof.
  destruct (oob_union (_component_ref (base task))) as (W & Hdom & HW).
  eexists. split; [by apply HW|].
  rewrite pod_labels_with_pod_labels. split; [done|]. split.
  - intros k Hp Hd. by apply lookup_outside_writes.
  - intros k [v Hk]. rewrite lookup_union, Hk.
    destruct (W !! k); by eexists.
Qed.

(** X7: the origin-derived injector and a static label injector commute:
    run in either order on a task they return the same task. (A static label
    under one of the two provenance keys never survives: run second it is
    skipped, run first it is overwritten.) *)
Theorem oob_add_pod_labels_commute (L : gmap str str) (task : Op) :
  (add_pod_labels (Some L) task ≫= add_name_for_oob_components)
  = (add_name_for_oob_components task ≫= add_pod_labels (Some L)).
Proof.
  destruct (oob_union (_component_ref (base task))) as (W & _ & HW).
  rewrite add_pod_labels_union, (HW task) by done.
  change (add_name_for_oob_components
            (with_pod_labels task (pod_labels (base task) ∪ L))
          = add_pod_labels (Some L)
              (with_pod_labels task (W ∪ pod_labels (base task)))).
  rewrite HW by apply component_ref_with_pod_labels.
  rewrite add_pod_labels_union, !with_pod_labels_twice,
    !pod_labels_with_pod_labels.
  by rewrite (assoc_L (∪)).
Qed.

(** X8: the origin-derived injector and the pod-env injector commute: the
    labels the first one writes are not the flag the second one reads, and
    the second one changes no label. *)
Theorem oob_add_pod_env_commute (op : Op) :
  add_name_for_oob_components (add_pod_env op)
  = (t ← add_name_for_oob_components op; Ok (add_pod_env t)).
Proof.
  destruct (oob_union (_component_ref (base op))) as (W & Hdom & HW).
  rewrite (HW op) by done.
  rewrite HW by (by rewrite base_add_pod_env).
  change (Ok (with_pod_labels (add_pod_env op)
                (W ∪ pod_labels (base (add_pod_env op))))
          =@{result Op}
          Ok (add_pod_env
                (with_pod_labels op (W ∪ pod_labels (base op))))).
  rewrite base_add_pod_env, add_pod_env_with_pod_labels; [done|].
  apply lookup_outside_writes; [done|apply pod_env_flag_no_oob_key..].
Qed.

(** ** Static labels, telemetry and the env flag *)

(** X9: two static label injectors in a row act as one injector configured
    with the union of their mappings in which the first mapping wins on a
    shared key. *)
Theorem add_pod_labels_compose (L M : gmap str str) (task : Op) :
  (add_pod_labels (Some L) task ≫= add_pod_labels (Some M))
  = add_pod_labels (Some (L ∪ M)) task.
Proof.
  rewrite !add_pod_labels_union.
  change (add_pod_labels (Some M)
            (with_pod_labels task (pod_labels (base task) ∪ L))
          = Ok (with_pod_labels task (pod_labels (base task) ∪ (L ∪ M)))).
  rewrite add_pod_labels_union, with_pod_labels_twice,
    pod_labels_with_pod_labels.
  by rewrite (assoc_L (∪)).
Qed.

(** X10: the injector configured with the default telemetry labels gives a
    task without the label ["pipelines.kubeflow.org/pipeline-sdk-type"] the
    value ["kfp"], leaves a value that is already there (another SDK's) as it
    is, and changes no other label. *)
Theorem default_telemetry_label (task : Op) :
  ∃ t', add_pod_labels (Some get_default_telemetry_labels) task = Ok t'
    ∧ pod_labels (base t') !! _SDK_ENV_LABEL
      = Some (default _SDK_ENV_DEFAULT (pod_labels (base task) !! _SDK_ENV_LABEL))
    ∧ ∀ k, k ≠ _SDK_ENV_LABEL →
           pod_labels (base t') !! k = pod_labels (base task) !! k.
Proof.
  eexists. split; [apply add_pod_labels_union|].
  rewrite pod_labels_with_pod_labels. unfold get_default_telemetry_labels.
  split.
  - rewrite lookup_union, lookup_insert_eq.
    by destruct (pod_labels (base task) !! _SDK_ENV_LABEL).
  - intros k Hk. rewrite lookup_union, lookup_insert_ne, lookup_empty by done.
    by rewrite (right_id None _).
Qed.

(** X11: [add_pod_env] is not idempotent: on a container-backed task whose
    flag is set every application appends the two descriptors again, so two
    applications leave four of them after the ones that were there. *)
Theorem add_pod_env_twice (b : BaseOp) (c : Container) :
  pod_labels b !! lit "add-pod-env" = Some (lit "true") →
  add_pod_env (add_pod_env (ContainerOp b c))
  = ContainerOp b
      {| env := env c ++
           [ field_env_var "KFP_POD_NAME" "metadata.name";
             field_env_var "KFP_NAMESPACE" "metadata.namespace";
             field_env_var "KFP_POD_NAME" "metadata.name";
             field_env_var "KFP_NAMESPACE" "metadata.namespace" ] |}.
Proof.
  intros Hflag.
  assert (∀ c', add_pod_env (ContainerOp b c')
                = ContainerOp b
                    (add_env_variable
                       (add_env_variable c'
                          (field_env_var "KFP_POD_NAME" "metadata.name"))
                       (field_env_var "KFP_NAMESPACE" "metadata.namespace")))
    as Hstep.
  { intros c'. unfold add_pod_env.
    by rewrite flag_nonempty, bool_decide_eq_true_2. }
  rewrite !Hstep. unfold add_env_variable. cbn [env].
  by rewrite <-!(assoc_L (++)).
Qed.

Lemma add_pod_env_twice_witness :
  add_pod_env
    (add_pod_env
       (ContainerOp
          {| pod_labels := {[ lit "add-pod-env" := lit "true" ]};
             _component_ref := None |}
          {| env := [] |}))
  = ContainerOp
      {| pod_labels := {[ lit "add-pod-env" := lit "true" ]};
         _component_ref := None |}
      {| env :=
           [ field_env_var "KFP_POD_NAME" "metadata.name";
             field_env_var "KFP_NAMESPACE" "metadata.namespace";
             field_env_var "KFP_POD_NAME" "metadata.name";
             field_env_var "KFP_NAMESPACE" "metadata.namespace" ] |}.
Proof.
  apply (add_pod_env_twice
           {| pod_labels := {[ lit "add-pod-env" := lit "true" ]};
              _component_ref := None |}
           {| env := [] |}).
  apply lookup_singleton_eq.
Defined.

(** X12: the order of the static label injector and the pod-env injector
    matters. When the configured mapping carries ["add-pod-env": "true"] and
    the container-backed task has no such label, the descriptors are attached
    if the labels are injected first, and are not if [add_pod_env] runs
    first; the labels are the same in both orders. *)
Theorem add_pod_labels_before_env
    (L : gmap str str) (b : BaseOp) (c : Container) :
  pod_labels b !! lit "add-pod-env" = None →
  L !! lit "add-pod-env" = Some (lit "true") →
  (t ← add_pod_labels (Some L) (ContainerOp b c); Ok (add_pod_env t))
  = Ok (ContainerOp
          {| pod_labels := pod_labels b ∪ L;
             _component_ref := _component_ref b |}
          {| env := env c ++
               [ field_env_var "KFP_POD_NAME" "metadata.name";
                 field_env_var "KFP_NAMESPACE" "metadata.namespace" ] |})
  ∧ add_pod_labels (Some L) (add_pod_env (ContainerOp b c))
    = Ok (ContainerOp
            {| pod_labels := pod_labels b ∪ L;
               _component_ref := _component_ref b |}
            c).
Proof.
  intros Hb HL. split.
  - rewrite add_pod_labels_union.
    change (Ok (add_pod_env
                  (ContainerOp
                     {| pod_labels := pod_labels b ∪ L;
                        _component_ref := _component_ref b |} c))
            =@{result Op}
            Ok (ContainerOp
                  {| pod_labels := pod_labels b ∪ L;
                     _component_ref := _component_ref b |}
                  {| env := env c ++
                       [ field_env_var "KFP_POD_NAME" "metadata.name";
                         field_env_var "KFP_NAMESPACE" "metadata.namespace" ]
                  |})).
    f_equal. unfold add_pod_env. cbn [pod_labels].
    rewrite flag_nonempty, bool_decide_eq_true_2.
    + unfold add_env_variable. cbn [env]. by rewrite <-(assoc_L (++)).
    + by rewrite lookup_union, Hb, HL.
  - assert (add_pod_env (ContainerOp b c) = ContainerOp b c) as ->.
    { unfold add_pod_env.
      rewrite flag_nonempty, bool_decide_eq_false_2; [done|].
      by rewrite Hb. }
    by rewrite add_pod_labels_union.
Qed.

Lemma add_pod_labels_before_env_witness :
  (t ← add_pod_labels (Some {[ lit "add-pod-env" := lit "true" ]})
         (ContainerOp {| pod_labels := ∅; _component_ref := None |}
            {| env := [] |});
   Ok (add_pod_env t))
  = Ok (ContainerOp
          {| pod_labels := ∅ ∪ {[ lit "add-pod-env" := lit "true" ]};
             _component_ref := None |}
          {| env :=
               [ field_env_var "KFP_POD_NAME" "metadata.name";
                 field_env_var "KFP_NAMESPACE" "metadata.namespace" ] |})
  ∧ add_pod_labels (Some {[ lit "add-pod-env" := lit "true" ]})
      (add_pod_env
         (ContainerOp {| pod_labels := ∅; _component_ref := None |}
            {| env := [] |}))
    = Ok (ContainerOp
            {| pod_labels := ∅ ∪ {[ lit "add-pod-env" := lit "true" ]};
               _component_ref := None |}
            {| env := [] |}).
Proof.
  apply (add_pod_labels_before_env
           {[ lit "add-pod-env" := lit "true" ]}
           {| pod_labels := ∅; _component_ref := None |}
           {| env := [] |}).
  - apply lookup_empty.
  - apply lookup_singleton_eq.
Defined.

(** X13: an empty url counts as no url. The empty origin path does not start
    with the catalog prefix, yet the transformer does not return early: a
    non-empty digest is still written (its first 63 characters), and with an
    empty digest as well the task is returned unchanged. *)
Theorem empty_url_is_absent (task : Op) (cr : ComponentReference) :
  _component_ref (base task) = Some cr →
  url cr = Some [] →
  PyStr.startswith (origin_path_of_url []) _OOB_COMPONENT_PATH_PREFIX = false
  ∧ (∀ d, digest cr = Some d → d ≠ [] →
          add_name_for_oob_components task
          = Ok (add_pod_label task COMPONENT_DIGEST_LABEL_KEY (take 63 d)))
  ∧ (digest cr = Some [] → add_name_for_oob_components task = Ok task).
Proof.
  intros Href Hurl.
  assert (PyStr.truthy (url cr) = None) as Hno by by rewrite Hurl.
  rewrite (oob_no_url task cr Href Hno). unfold add_digest_label.
  split; [reflexivity|]. split.
  - intros d Hd Hne.
    assert (PyStr.truthy (digest cr) = Some d) as -> by by apply truthy_Some.
    by rewrite slice_to_63.
  - intros Hd. by rewrite Hd.
Qed.

Lemma empty_url_is_absent_witness :
  PyStr.startswith (origin_path_of_url []) _OOB_COMPONENT_PATH_PREFIX = false
  ∧ (∀ d, Some (lit "0a1b") = Some d → d ≠ [] →
          add_name_for_oob_components
            (oob_task ∅ (Some []) (Some (lit "0a1b")))
          = Ok (add_pod_label (oob_task ∅ (Some []) (Some (lit "0a1b")))
                  COMPONENT_DIGEST_LABEL_KEY (take 63 d)))
  ∧ (Some (lit "0a1b") = Some [] →
     add_name_for_oob_components (oob_task ∅ (Some []) (Some (lit "0a1b")))
     = Ok (oob_task ∅ (Some []) (Some (lit "0a1b")))).
Proof.
  apply (empty_url_is_absent
           (oob_task ∅ (Some []) (Some (lit "0a1b")))
           {| url := Some []; digest := Some (lit "0a1b") |});
    reflexivity.
Defined.
